(** * WingSCAD: [txt_to_scad.py]

    A shallow embedding of the script that turns a text listing of 2D
    points into an OpenSCAD array declaration, and the properties of its
    line filter, tokenizer, number handling and output layout.

    Conventions of the model.
    - A Python [str] is a [string]; a character is an [ascii], read as the
      code point of the same number (U+0000 .. U+00FF).
    - A file holds text: its decoded contents.  Opening a path for reading
      fails when nothing is there or when it is a directory; opening for
      writing creates or truncates, and fails on a directory.
    - A Python [float] is an IEEE-754 binary64 value, kept exactly as a
      sign, an integer significand and a binary exponent (or an infinity,
      or a NaN).
    - Exceptions are values of [exn]; statements run in a state-and-error
      monad over the [world] (files and standard output). *)

From Stdlib Require Import ZArith NArith Ascii String List Bool Lia.
From stdpp Require Import base option list strings gmap.

Local Open Scope string_scope.
Local Open Scope Z_scope.

#[local] Arguments String.append !s1 s2 : simpl nomatch.

(** ** Characters and the [str] methods the script calls *)

Module Str.

Definition LF : ascii := "010"%char.
Definition CR : ascii := "013"%char.

(** [c.isspace()] for a code point below 256: TAB, LF, VT, FF, CR, the
    separators FS, GS, RS, US, SPACE, NEL and NO-BREAK SPACE. *)
Definition isspace (c : ascii) : bool :=
  let n := N_of_ascii c in
  ((9 <=? n) && (n <=? 13) || (28 <=? n) && (n <=? 32)
   || (n =? 133) || (n =? 160))%N.

(** One of the ten characters [0] to [9]. *)
Definition is_digit (c : ascii) : bool :=
  let n := N_of_ascii c in ((48 <=? n) && (n <=? 57))%N.

Definition is_empty (s : string) : bool :=
  match s with EmptyString => true | String _ _ => false end.

Fixpoint lstrip (s : string) : string :=
  match s with
  | EmptyString => EmptyString
  | String c s' => if isspace c then lstrip s' else s
  end.

Fixpoint rstrip (s : string) : string :=
  match s with
  | EmptyString => EmptyString
  | String c s' =>
      let r := rstrip s' in
      if isspace c && is_empty r then EmptyString else String c r
  end.

(** [s.strip()] *)
Definition strip (s : string) : string := rstrip (lstrip s).

(** [s.startswith(p)] *)
Fixpoint startswith (p s : string) : bool :=
  match p, s with
  | EmptyString, _ => true
  | String a p', String b s' => if Ascii.eqb a b then startswith p' s' else false
  | String _ _, EmptyString => false
  end.

(** [sub in s] *)
Fixpoint contains (sub s : string) : bool :=
  match s with
  | EmptyString => is_empty sub
  | String _ s' => startswith sub s || contains sub s'
  end.

(** [s.replace(old, new)] for one-character [old] and [new]. *)
Fixpoint replace (old new : ascii) (s : string) : string :=
  match s with
  | EmptyString => EmptyString
  | String c s' =>
      String (if Ascii.eqb c old then new else c) (replace old new s')
  end.

(** [s.split()]: the maximal runs of non-whitespace, in order.  [tok]
    is the run being read. *)
Fixpoint split_from (tok s : string) : list string :=
  match s with
  | EmptyString => if is_empty tok then [] else [tok]
  | String c s' =>
      if isspace c
      then (if is_empty tok then split_from EmptyString s'
            else tok :: split_from EmptyString s')
      else split_from (tok ++ String c EmptyString) s'
  end.

Definition split (s : string) : list string := split_from EmptyString s.

(** [sep.join(l)] *)
Fixpoint join (sep : string) (l : list string) : string :=
  match l with
  | [] => EmptyString
  | [x] => x
  | x :: l' => x ++ sep ++ join sep l'
  end.

(** Iterating over a file opened in text mode with universal newlines:
    a line ends at LF, at CR LF or at a lone CR, each delivered as LF and
    kept at the end of the line; a last line without terminator is
    delivered as it is. *)
Fixpoint lines_from (cur s : string) : list string :=
  match s with
  | EmptyString => if is_empty cur then [] else [cur]
  | String c s' =>
      if Ascii.eqb c LF then (cur ++ String LF EmptyString) :: lines_from EmptyString s'
      else if Ascii.eqb c CR then
        (cur ++ String LF EmptyString) ::
          lines_from EmptyString
            (match s' with
             | String c' s'' => if Ascii.eqb c' LF then s'' else s'
             | EmptyString => s'
             end)
      else lines_from (cur ++ String c EmptyString) s'
  end.

Definition lines (s : string) : list string := lines_from EmptyString s.

End Str.

(** ** Floating-point numbers: [float(s)] and the [.6f] format *)

(** A binary64 value.  [Finite neg m e] is [(-1)^neg * m * 2^e]. *)
Inductive pyfloat : Type :=
| Finite (neg : bool) (m e : Z)
| Inf (neg : bool)
| NaN.

Module Float.

(** The integer nearest to [num / den], a tie going to the even one. *)
Definition round_half_even (num den : Z) : Z :=
  let q := num / den in
  match 2 * (num mod den) ?= den with
  | Lt => q
  | Gt => q + 1
  | Eq => if Z.even q then q else q + 1
  end.

(** [floor (log2 (num / den))] for positive [num] and [den]. *)
Definition ilog2_ratio (num den : Z) : Z :=
  let d := Z.log2 num - Z.log2 den in
  if num * 2 ^ Z.max 0 (- d) <? den * 2 ^ Z.max 0 d then d - 1 else d.

(** Round-to-nearest-even conversion of [num / den] to binary64: 53
    significant bits, exponent of the last bit at least -1074, overflow
    to an infinity from [2^1024] on. *)
Definition of_ratio (neg : bool) (num den : Z) : pyfloat :=
  if num =? 0 then Finite neg 0 0
  else
    let e := Z.max (ilog2_ratio num den - 52) (-1074) in
    let m := round_half_even (num * 2 ^ Z.max 0 (- e)) (den * 2 ^ Z.max 0 e) in
    if 2 ^ 2098 <=? m * 2 ^ (e + 1074) then Inf neg else Finite neg m e.

Definition digit_of (c : ascii) : Z := Z.of_N (N_of_ascii c) - 48.

Fixpoint digits_value_from (acc : Z) (s : string) : Z :=
  match s with
  | EmptyString => acc
  | String c s' => digits_value_from (10 * acc + digit_of c) s'
  end.

(** The number written by a string of decimal digits. *)
Definition digits_value (s : string) : Z := digits_value_from 0 s.

(** The longest prefix of digits, and what follows it. *)
Fixpoint span_digits (s : string) : string * string :=
  match s with
  | EmptyString => (EmptyString, EmptyString)
  | String c s' =>
      if Str.is_digit c
      then let '(d, r) := span_digits s' in (String c d, r)
      else (EmptyString, s)
  end.

Definition take_sign (s : string) : bool * string :=
  match s with
  | String "-" r => (true, r)
  | String "+" r => (false, r)
  | _ => (false, s)
  end.

(** The exponent part [e/E, sign, digits]: the exponent and what follows
    it, or exponent 0 and the text untouched when no digit follows. *)
Definition take_exponent (s : string) : Z * string :=
  match s with
  | String c r =>
      if Ascii.eqb c "e" || Ascii.eqb c "E" then
        let '(eneg, r1) := take_sign r in
        let '(ed, r2) := span_digits r1 in
        if Str.is_empty ed then (0, s)
        else ((if eneg then - digits_value ed else digits_value ed), r2)
      else (0, s)
  | EmptyString => (0, s)
  end.

(** The point and the digits after it, when a point comes next. *)
Definition take_fraction (s : string) : string * string :=
  match s with
  | String c r => if Ascii.eqb c "." then span_digits r else (EmptyString, s)
  | EmptyString => (EmptyString, s)
  end.

(** The decimal-to-double conversion behind [float]: sign, digits with an
    optional point (one digit at least), optional exponent; the value
    read, correctly rounded, and the unread rest.  [None]: no number at
    the start of [s]. *)
Definition strtod (s : string) : option (pyfloat * string) :=
  let '(neg, s1) := take_sign s in
  let '(ip, s2) := span_digits s1 in
  let '(fp, s3) := take_fraction s2 in
  if Str.is_empty ip && Str.is_empty fp then None
  else
    let '(ex, s4) := take_exponent s3 in
    let e10 := ex - Z.of_nat (String.length fp) in
    Some (of_ratio neg (digits_value (ip ++ fp) * 10 ^ Z.max 0 e10)
                       (10 ^ Z.max 0 (- e10)), s4).

Definition lower (c : ascii) : ascii :=
  let n := N_of_ascii c in
  if ((65 <=? n) && (n <=? 90))%N then ascii_of_N (n + 32) else c.

(** [p] is a prefix of [s] up to the case of ASCII letters; the rest. *)
Fixpoint match_nocase (p s : string) : option string :=
  match p, s with
  | EmptyString, _ => Some s
  | String a p', String b s' =>
      if Ascii.eqb a (lower b) then match_nocase p' s' else None
  | String _ _, EmptyString => None
  end.

(** [inf], [infinity] and [nan] in any case, with an optional sign. *)
Definition parse_inf_or_nan (s : string) : option (pyfloat * string) :=
  let '(neg, s1) := take_sign s in
  match match_nocase "inf" s1 with
  | Some r =>
      match match_nocase "inity" r with
      | Some r' => Some (Inf neg, r')
      | None => Some (Inf neg, r)
      end
  | None =>
      match match_nocase "nan" s1 with
      | Some r => Some (NaN, r)
      | None => None
      end
  end.

(** Underscores may group digits: each must stand between two digits,
    and is dropped.  [prev] is the character before [s]. *)
Fixpoint drop_underscores (prev : ascii) (s : string) : option string :=
  match s with
  | EmptyString => if Ascii.eqb prev "_" then None else Some EmptyString
  | String c s' =>
      if Ascii.eqb c "_" then
        if Str.is_digit prev then drop_underscores c s' else None
      else if Ascii.eqb prev "_" && negb (Str.is_digit c) then None
      else String c <$> drop_underscores c s'
  end.

(** The blanks [float] itself removes around the number. *)
Definition blank (c : ascii) : bool :=
  let n := N_of_ascii c in
  ((9 <=? n) && (n <=? 13) || (n =? 32) || (n =? 133) || (n =? 160))%N.

Fixpoint lstrip_blank (s : string) : string :=
  match s with
  | EmptyString => EmptyString
  | String c s' => if blank c then lstrip_blank s' else s
  end.

Fixpoint rstrip_blank (s : string) : string :=
  match s with
  | EmptyString => EmptyString
  | String c s' =>
      let r := rstrip_blank s' in
      if blank c && Str.is_empty r then EmptyString else String c r
  end.

(** [float(s)]: [None] stands for the [ValueError] it raises. *)
Definition float (s : string) : option pyfloat :=
  s1 ← drop_underscores "000"%char s;
  let s2 := rstrip_blank (lstrip_blank s1) in
  match strtod s2 with
  | Some (x, rest) => if Str.is_empty rest then Some x else None
  | None =>
      match parse_inf_or_nan s2 with
      | Some (x, rest) => if Str.is_empty rest then Some x else None
      | None => None
      end
  end.

Definition digit_char (d : Z) : ascii := ascii_of_N (Z.to_N (48 + d)).

Fixpoint decimal_from (fuel : nat) (n : Z) (acc : string) : string :=
  match fuel with
  | O => acc
  | S fuel' =>
      let acc' := String (digit_char (n mod 10)) acc in
      if n / 10 =? 0 then acc' else decimal_from fuel' (n / 10) acc'
  end.

(** The decimal digits of [n >= 0], without leading zeros. *)
Definition decimal (n : Z) : string :=
  decimal_from (S (Z.to_nat (Z.log2 n))) n EmptyString.

(** The [k] low decimal digits of [n], most significant first. *)
Fixpoint fixed_digits (k : nat) (n : Z) : string :=
  match k with
  | O => EmptyString
  | S k' => fixed_digits k' (n / 10) ++ String (digit_char (n mod 10)) EmptyString
  end.

Definition sign_text (neg : bool) : string := if neg then "-" else EmptyString.

(** [format(x, ".6f")]: the value rounded to the nearest multiple of
    [10^-6] (ties to even), written with all its integer digits. *)
Definition format_6f (x : pyfloat) : string :=
  match x with
  | NaN => "nan"
  | Inf neg => sign_text neg ++ "inf"
  | Finite neg m e =>
      let q := round_half_even (m * 2 ^ Z.max 0 e * 10 ^ 6) (2 ^ Z.max 0 (- e)) in
      sign_text neg ++ decimal (q / 10 ^ 6) ++ "." ++ fixed_digits 6 (q mod 10 ^ 6)
  end.

End Float.

(** ** Exceptions, files and the monad of statements *)

Inductive value_error : Type :=
| CouldNotConvert (tok : string)   (* float(tok) *)
| UnpackMismatch.                  (* x, y = ... with other than two values *)

Inductive exn : Type :=
| FileNotFoundError (path : string)
| IsADirectoryError (path : string)
| ValueError (why : value_error)
| IndexError
| SystemExit (code : Z).

Inductive node : Type :=
| RegularFile (text : string)
| Directory.

Record world : Type := World {
  files : gmap string node;
  stdout : string
}.

(** Code that may raise and touches nothing. *)
Definition result (A : Type) : Type := exn + A.

#[global] Instance result_ret : MRet result := fun A a => inr a.
#[global] Instance result_bind : MBind result := fun A B f r =>
  match r with
  | inl e => inl e
  | inr a => f a
  end.

(** Code that may raise and reads or changes the world. *)
Definition M (A : Type) : Type := world -> result A * world.

#[global] Instance M_ret : MRet M := fun A a w => (inr a, w).
#[global] Instance M_bind : MBind M := fun A B f m w =>
  match m w with
  | (inl e, w') => (inl e, w')
  | (inr a, w') => f a w'
  end.

Definition raise {A : Type} (e : exn) : M A := fun w => (inl e, w).

Definition lift {A : Type} (r : result A) : M A := fun w => (r, w).

Definition nl : string := String Str.LF EmptyString.

(** [open(path)]: the text to be read.  The name space is flat: a path
    is the name of its file, and two paths that differ are two files.  Of
    the ways in which opening can fail, the model has the missing file
    and the directory; permissions, missing parent directories and
    several names for one file are not in it. *)
Definition open_read (path : string) : M string := fun w =>
  match files w !! path with
  | Some (RegularFile text) => (inr text, w)
  | Some Directory => (inl (IsADirectoryError path), w)
  | None => (inl (FileNotFoundError path), w)
  end.

(** [open(path, 'w')]: the file is created, or emptied.  It fails on a
    directory, the one failure of opening for writing that the model
    has. *)
Definition open_write (path : string) : M unit := fun w =>
  match files w !! path with
  | Some Directory => (inl (IsADirectoryError path), w)
  | _ => (inr tt, World (<[path := RegularFile EmptyString]> (files w)) (stdout w))
  end.

Definition append_text (s : string) (n : node) : node :=
  match n with
  | RegularFile text => RegularFile (text ++ s)
  | Directory => Directory
  end.

(** [f.write(s)] on the file opened at [path]. *)
Definition write (path s : string) : M unit := fun w =>
  (inr tt, World (alter (append_text s) path (files w)) (stdout w)).

(** [print(s)] *)
Definition print (s : string) : M unit := fun w =>
  (inr tt, World (files w) (stdout w ++ s ++ nl)).

(** ** The script *)

Definition to_float (tok : string) : result pyfloat :=
  match Float.float tok with
  | Some x => inr x
  | None => inl (ValueError (CouldNotConvert tok))
  end.

(** [map(float, toks)], consumed from left to right. *)
Fixpoint map_float (toks : list string) : result (list pyfloat) :=
  match toks with
  | [] => mret []
  | t :: toks' => x ← to_float t; xs ← map_float toks'; mret (x :: xs)
  end.

(** [f"    [{x:.6f}, {y:.6f}]"] *)
Definition format_point (x y : pyfloat) : string :=
  "    [" ++ Float.format_6f x ++ ", " ++ Float.format_6f y ++ "]".

(** The body of [for line in f]: the value of [pts] after it. *)
Definition loop_body (pts : list string) (line : string) : result (list string) :=
  let line := Str.strip line in
  if Str.is_empty line || Str.startswith "#" line || Str.contains "..." line
  then mret pts
  else
    let parts := Str.split (Str.replace "," " " line) in
    if (length parts <? 2)%nat then mret pts
    else
      xy ← map_float (take 2 parts);
      match xy with
      | [x; y] => mret (pts ++ [format_point x y])%list
      | _ => inl (ValueError UnpackMismatch)
      end.

(** [for line in f: ...] *)
Fixpoint scan (pts : list string) (lines : list string) : result (list string) :=
  match lines with
  | [] => mret pts
  | line :: lines' => pts' ← loop_body pts line; scan pts' lines'
  end.

(** The first [with] block: the lines of [infile] turned into [pts]. *)
Definition read_points (infile : string) : M (list string) :=
  text ← open_read infile;
  lift (scan [] (Str.lines text)).

(** The second [with] block: the four writes to [outfile]. *)
Definition write_points (infile varname outfile : string) (pts : list string) : M unit :=
  _ ← open_write outfile;
  _ ← write outfile ("// Auto-generated from " ++ infile ++ nl);
  _ ← write outfile (varname ++ " = [" ++ nl);
  _ ← write outfile (Str.join ("," ++ nl) pts);
  write outfile (nl ++ "];" ++ nl).

Definition txt_to_scad (infile varname outfile : string) : M unit :=
  pts ← read_points infile;
  write_points infile varname outfile pts.

Definition usage : string := "Usage: txt_to_scad.py input.txt varname output.scad".

(** [sys.argv[i]] *)
Definition arg (argv : list string) (i : nat) : M string :=
  match argv !! i with
  | Some a => mret a
  | None => raise IndexError
  end.

(** The [if __name__ == "__main__":] block, [argv] being [sys.argv]. *)
Definition main (argv : list string) : M unit :=
  _ ← (if negb (length argv =? 4)%nat
       then _ ← print usage; raise (SystemExit 1)
       else mret tt);
  a1 ← arg argv 1; a2 ← arg argv 2; a3 ← arg argv 3;
  txt_to_scad a1 a2 a3.

(** The exit status of the interpreter. *)
Definition exit_status (r : result unit) : Z :=
  match r with
  | inr _ => 0
  | inl (SystemExit code) => code
  | inl _ => 1
  end.

(** ** Vocabulary of the statements *)

(** The line passes the filter at the head of the loop body. *)
Definition kept (line : string) : bool :=
  let s := Str.strip line in
  negb (Str.is_empty s || Str.startswith "#" s || Str.contains "..." s).

(** The tokens of a line: commas turned into spaces, split at whitespace. *)
Definition tokens (line : string) : list string :=
  Str.split (Str.replace "," " " (Str.strip line)).

(** The line is blank, a comment, or carries the elision marker. *)
Definition filtered (line : string) : Prop :=
  Str.strip line = EmptyString
  \/ Forall (fun c => Str.isspace c = true) (list_ascii_of_string line)
  \/ (exists r, Str.strip line = String "#" r)
  \/ (exists a b, line = a ++ "..." ++ b).

(** The coordinate a line stands for, if it stands for one. *)
Definition point_of_line (line : string) : option (pyfloat * pyfloat) :=
  if kept line then
    match tokens line with
    | t1 :: t2 :: _ =>
        match Float.float t1, Float.float t2 with
        | Some x, Some y => Some (x, y)
        | _, _ => None
        end
    | _ => None
    end
  else None.

(** The coordinates of a text, in the order of its lines. *)
Definition retained (lines : list string) : list (pyfloat * pyfloat) :=
  omap point_of_line lines.

Definition pair_line (p : pyfloat * pyfloat) : string :=
  "    [" ++ Float.format_6f (fst p) ++ ", " ++ Float.format_6f (snd p) ++ "]".

(** Every row but the last followed by a comma and a line break, the
    last by nothing. *)
Definition array_body (rows : list string) : string :=
  fold_right String.append (List.last rows EmptyString)
    (map (fun row => row ++ "," ++ nl) (List.removelast rows)).

(** The text of the destination for the rows [rows]. *)
Definition scad_text (infile varname : string) (rows : list string) : string :=
  "// Auto-generated from " ++ infile ++ nl
  ++ varname ++ " = [" ++ nl
  ++ array_body rows
  ++ nl ++ "];" ++ nl.

(** The world after a conversion that wrote [rows] to [outfile]. *)
Definition written (infile varname outfile : string) (rows : list string) (w : world) : world :=
  World (<[outfile := RegularFile (scad_text infile varname rows)]> (files w)) (stdout w).

(** Every character of [s] is a decimal digit. *)
Fixpoint all_digits (s : string) : bool :=
  match s with
  | EmptyString => true
  | String c s' => Str.is_digit c && all_digits s'
  end.


(** A sample listing (a comment, both separators, the elision marker, a
    token too many), and a world that holds it. *)
Definition demo : string :=
  "# header" ++ nl ++ "1, 2" ++ nl ++ "3 4" ++ nl ++ "..." ++ nl
  ++ "5.5 6.25 extra" ++ nl.

Definition demo_world : world :=
  World {[ "input.txt" := RegularFile demo ]} EmptyString.

(** The token at which the loop body raises on [line], if it raises: the
    first of the first two tokens of a kept line that is not a number. *)
Definition culprit (line : string) : option string :=
  if kept line then
    match tokens line with
    | t1 :: t2 :: _ =>
        match Float.float t1 with
        | None => Some t1
        | Some _ =>
            match Float.float t2 with
            | None => Some t2
            | Some _ => None
            end
        end
    | _ => None
    end
  else None.

(** Every character of [s] is whitespace. *)
Fixpoint all_space (s : string) : bool :=
  match s with
  | EmptyString => true
  | String c s' => Str.isspace c && all_space s'
  end.

(** No character of [s] is whitespace or a comma. *)
Fixpoint solid (s : string) : bool :=
  match s with
  | EmptyString => true
  | String c s' => negb (Str.isspace c) && negb (Ascii.eqb c ",") && solid s'
  end.

(** [k] times the digit [0]. *)
Fixpoint zeros (k : nat) : string :=
  match k with
  | O => EmptyString
  | S k' => String "0" (zeros k')
  end.

(** Every character of [s] is a digit, a minus sign, a point or the
    letter [e]. *)
Fixpoint plain (s : string) : bool :=
  match s with
  | EmptyString => true
  | String c s' =>
      (Str.is_digit c || Ascii.eqb c "-" || Ascii.eqb c "." || Ascii.eqb c "e")
      && plain s'
  end.

(** ** Strings *)

Section StringFacts.

Lemma append_empty_r (s : string) : s ++ EmptyString = s.
Proof. induction s as [|c s IH]; simpl; [reflexivity | now rewrite IH]. Qed.

Lemma append_assoc (s t u : string) : (s ++ t) ++ u = s ++ t ++ u.
Proof. induction s as [|c s IH]; simpl; [reflexivity | now rewrite IH]. Qed.

Lemma is_empty_true (s : string) : Str.is_empty s = true <-> s = EmptyString.
Proof. destruct s; simpl; split; congruence. Qed.

Lemma startswith_prefix (p s : string) :
  Str.startswith p s = true <-> exists r, s = p ++ r.
Proof.
  revert s. induction p as [|a p IH]; intros s; simpl.
  - split; [intros _; now exists s | reflexivity].
  - destruct s as [|b s].
    + split; [discriminate | intros [r Hr]; discriminate].
    + destruct (Ascii.eqb_spec a b) as [->|Hne].
      * rewrite IH. split; intros [r Hr]; exists r; congruence.
      * split; [discriminate | intros [r Hr]; congruence].
Qed.

Lemma contains_infix (sub s : string) :
  Str.contains sub s = true <-> exists a b, s = a ++ sub ++ b.
Proof.
  induction s as [|c s IH]; simpl.
  - rewrite is_empty_true. split.
    + intros ->. now exists EmptyString, EmptyString.
    + intros [a [b Hab]]. destruct a; [destruct sub|]; simpl in Hab; congruence.
  - rewrite orb_true_iff, IH, startswith_prefix. split.
    + intros [[r Hr] | [a [b Hab]]].
      * now exists EmptyString, r.
      * exists (String c a), b. simpl. congruence.
    + intros [a [b Hab]]. destruct a as [|c' a]; simpl in Hab.
      * left. now exists b.
      * right. exists a, b. congruence.
Qed.

(** Stripping removes whitespace only: the marker survives it. *)
Lemma lstrip_keeps_dots (a b : string) :
  exists a', Str.lstrip (a ++ "..." ++ b) = a' ++ "..." ++ b.
Proof.
  induction a as [|c a [a' IH]]; simpl.
  - now exists EmptyString.
  - destruct (Str.isspace c).
    + now exists a'.
    + now exists (String c a).
Qed.

Lemma rstrip_keeps_dots (a b : string) :
  exists b', Str.rstrip (a ++ "..." ++ b) = a ++ "..." ++ b'.
Proof.
  induction a as [|c a [b' IH]]; simpl in *.
  - now exists (Str.rstrip b).
  - rewrite IH. exists b'.
    replace (Str.is_empty (a ++ String "." (String "." (String "." b')))) with false
      by (destruct a; reflexivity).
    now rewrite andb_false_r.
Qed.

Lemma strip_keeps_dots (line : string) :
  (exists a b, line = a ++ "..." ++ b) ->
  exists a b, Str.strip line = a ++ "..." ++ b.
Proof.
  intros [a [b ->]]. unfold Str.strip.
  destruct (lstrip_keeps_dots a b) as [a' ->].
  destruct (rstrip_keeps_dots a' b) as [b' ->].
  now exists a', b'.
Qed.

End StringFacts.

(** ** The loop *)

Section Loop.

Lemma lstrip_all_space (s : string) :
  Forall (fun c => Str.isspace c = true) (list_ascii_of_string s) ->
  Str.lstrip s = EmptyString.
Proof.
  induction s as [|c s IH]; simpl; intros H; [reflexivity|].
  inversion H as [|? ? Hc Hs]; subst. rewrite Hc. auto.
Qed.

Lemma filtered_not_kept (line : string) : filtered line -> kept line = false.
Proof.
  unfold kept. intros [H | [H | [[r H] | H]]].
  - now rewrite H.
  - unfold Str.strip. now rewrite lstrip_all_space.
  - now rewrite H.
  - apply strip_keeps_dots, contains_infix in H. rewrite H.
    now rewrite !orb_true_r.
Qed.

Lemma loop_body_skip (pts : list string) (line : string) :
  kept line = false -> loop_body pts line = inr pts.
Proof.
  unfold kept, loop_body. intros H%negb_false_iff. now rewrite H.
Qed.

Lemma loop_body_short (pts : list string) (line : string) :
  (length (tokens line) < 2)%nat -> loop_body pts line = inr pts.
Proof.
  unfold tokens, loop_body. intros H%Nat.ltb_lt.
  rewrite H. now destruct (_ || _).
Qed.

Lemma loop_body_pair (pts : list string) (line t1 t2 : string) (rest : list string) :
  kept line = true ->
  tokens line = t1 :: t2 :: rest ->
  loop_body pts line =
    match Float.float t1, Float.float t2 with
    | Some x, Some y => inr (pts ++ [format_point x y])%list
    | None, _ => inl (ValueError (CouldNotConvert t1))
    | Some _, None => inl (ValueError (CouldNotConvert t2))
    end.
Proof.
  unfold kept, tokens, loop_body. intros H%negb_true_iff Ht.
  rewrite H, Ht. simpl. unfold to_float.
  destruct (Float.float t1); [|reflexivity].
  destruct (Float.float t2); reflexivity.
Qed.

(** What one line does to [pts], told from the line alone. *)
Lemma loop_body_cases (pts : list string) (line : string) :
  loop_body pts line =
    if kept line then
      match tokens line with
      | t1 :: t2 :: _ =>
          match Float.float t1, Float.float t2 with
          | Some x, Some y => inr (pts ++ [format_point x y])%list
          | None, _ => inl (ValueError (CouldNotConvert t1))
          | Some _, None => inl (ValueError (CouldNotConvert t2))
          end
      | _ => inr pts
      end
    else inr pts.
Proof.
  destruct (kept line) eqn:Hk; [|now apply loop_body_skip].
  destruct (tokens line) as [|t1 [|t2 rest]] eqn:Ht.
  - apply loop_body_short. rewrite Ht. simpl. lia.
  - apply loop_body_short. rewrite Ht. simpl. lia.
  - now apply loop_body_pair with (rest := rest).
Qed.

Lemma scan_app (pts : list string) (l1 l2 : list string) :
  scan pts (l1 ++ l2) = (pts' ← scan pts l1; scan pts' l2).
Proof.
  revert pts. induction l1 as [|line l1 IH]; intros pts; simpl; [reflexivity|].
  destruct (loop_body pts line) as [e|pts']; simpl; [reflexivity | apply IH].
Qed.

Lemma scan_skip_line (line : string) :
  (forall pts, loop_body pts line = inr pts) ->
  forall pts before after,
    scan pts (before ++ line :: after) = scan pts (before ++ after).
Proof.
  intros Hskip pts before after. rewrite !scan_app.
  destruct (scan pts before) as [e|pts']; simpl; [reflexivity|].
  now rewrite Hskip.
Qed.

Lemma point_of_line_skip (line : string) :
  kept line = false -> point_of_line line = None.
Proof. unfold point_of_line. now intros ->. Qed.

Lemma point_of_line_short (line : string) :
  (length (tokens line) < 2)%nat -> point_of_line line = None.
Proof.
  unfold point_of_line. intros H. destruct (kept line); [|reflexivity].
  destruct (tokens line) as [|t1 [|t2 rest]]; simpl in H; [reflexivity..|lia].
Qed.

(** A run of the loop that ends well has appended the rows of the
    retained coordinates, in the order of the lines. *)
Lemma scan_retained (lines : list string) :
  forall pts pts',
    scan pts lines = inr pts' ->
    pts' = (pts ++ map pair_line (retained lines))%list.
Proof.
  induction lines as [|line lines IH]; intros pts pts'; simpl.
  - intros [= <-]. now rewrite app_nil_r.
  - rewrite loop_body_cases. unfold retained. simpl. unfold point_of_line.
    destruct (kept line); [|apply IH].
    destruct (tokens line) as [|t1 [|t2 rest]]; [apply IH..|].
    destruct (Float.float t1) as [x|]; [|discriminate].
    destruct (Float.float t2) as [y|]; [|discriminate].
    simpl. intros H%IH. now rewrite H, <- List.app_assoc.
Qed.

(** The only exception the loop raises is that of [float]. *)
Lemma loop_body_raises (pts : list string) (line : string) (e : exn) :
  loop_body pts line = inl e -> exists tok, e = ValueError (CouldNotConvert tok).
Proof.
  rewrite loop_body_cases. destruct (kept line); [|discriminate].
  destruct (tokens line) as [|t1 [|t2 rest]]; [discriminate..|].
  destruct (Float.float t1); [|intros [= <-]; eauto].
  destruct (Float.float t2); [discriminate|intros [= <-]; eauto].
Qed.

Lemma scan_raises (lines : list string) :
  forall pts e, scan pts lines = inl e -> exists tok, e = ValueError (CouldNotConvert tok).
Proof.
  induction lines as [|line lines IH]; intros pts e; simpl; [discriminate|].
  destruct (loop_body pts line) as [e'|pts'] eqn:Hb; simpl.
  - intros [= <-]. eapply loop_body_raises, Hb.
  - apply IH.
Qed.

End Loop.


(** ** Runs of the conversion *)

Section Runs.

Lemma join_array_body (rows : list string) :
  Str.join ("," ++ nl) rows = array_body rows.
Proof.
  unfold array_body.
  induction rows as [|row rows IH]; [reflexivity|].
  destruct rows as [|row' rows]; [reflexivity|].
  change (Str.join ("," ++ nl) (row :: row' :: rows))
    with (row ++ ("," ++ nl) ++ Str.join ("," ++ nl) (row' :: rows)).
  rewrite IH. cbn [List.removelast List.last map fold_right].
  now rewrite !append_assoc.
Qed.

Lemma write_points_run (infile varname outfile : string) (pts : list string) (w : world) :
  write_points infile varname outfile pts w =
    match files w !! outfile with
    | Some Directory => (inl (IsADirectoryError outfile), w)
    | _ => (inr tt, written infile varname outfile pts w)
    end.
Proof.
  unfold write_points, written, scad_text, mbind, M_bind, open_write, write.
  destruct (files w !! outfile) as [[text|]|]; cbn [files stdout]; try reflexivity.
  all: rewrite !alter_insert_eq; cbn [append_text];
    rewrite join_array_body, !append_assoc; reflexivity.
Qed.

Lemma txt_to_scad_run (infile varname outfile : string) (w : world) :
  txt_to_scad infile varname outfile w =
    match files w !! infile with
    | None => (inl (FileNotFoundError infile), w)
    | Some Directory => (inl (IsADirectoryError infile), w)
    | Some (RegularFile text) =>
        match scan [] (Str.lines text) with
        | inl e => (inl e, w)
        | inr pts =>
            match files w !! outfile with
            | Some Directory => (inl (IsADirectoryError outfile), w)
            | _ => (inr tt, written infile varname outfile pts w)
            end
        end
    end.
Proof.
  unfold txt_to_scad, read_points, mbind, M_bind, open_read, lift.
  destruct (files w !! infile) as [[text|]|]; try reflexivity.
  destruct (scan [] (Str.lines text)) as [e|pts]; [reflexivity|].
  apply write_points_run.
Qed.

End Runs.

(** ** The output file *)

(** C1. After a successful [txt_to_scad infile varname outfile], the
    destination holds the comment line naming [infile], the line
    [varname = [], one row of four spaces and [[x, y]] per retained
    coordinate in the order of the source lines, every row but the last
    followed by a comma and a line break, the last by neither, and then a
    line break, [];] and a line break. *)
Theorem C1_output_layout (infile varname outfile : string) (w w' : world) :
  txt_to_scad infile varname outfile w = (inr tt, w') ->
  exists text,
    files w !! infile = Some (RegularFile text) /\
    files w' !! outfile =
      Some (RegularFile
              ("// Auto-generated from " ++ infile ++ nl
               ++ varname ++ " = [" ++ nl
               ++ array_body (map pair_line (retained (Str.lines text)))
               ++ nl ++ "];" ++ nl)).
Proof.
  rewrite txt_to_scad_run.
  destruct (files w !! infile) as [[text|]|]; [|discriminate..].
  destruct (scan [] (Str.lines text)) as [e|pts] eqn:Hscan; [discriminate|].
  apply scan_retained in Hscan. simpl in Hscan. subst pts.
  intros Hrun. exists text. split; [reflexivity|].
  assert (w' = written infile varname outfile
                 (map pair_line (retained (Str.lines text))) w) as ->
    by (destruct (files w !! outfile) as [[?|]|]; congruence).
  apply lookup_insert_eq.
Qed.

Lemma C1_output_layout_witness :
  exists text,
    files demo_world !! "input.txt" = Some (RegularFile text) /\
    files (snd (txt_to_scad "input.txt" "pts" "out.scad" demo_world)) !! "out.scad" =
      Some (RegularFile
              ("// Auto-generated from " ++ "input.txt" ++ nl
               ++ "pts" ++ " = [" ++ nl
               ++ array_body (map pair_line (retained (Str.lines text)))
               ++ nl ++ "];" ++ nl)).
Proof.
  apply (C1_output_layout "input.txt" "pts" "out.scad" demo_world).
  vm_compute. reflexivity.
Defined.

(** The sample listing, run through the whole script. *)
Example demo_run :
  txt_to_scad "input.txt" "pts" "out.scad" demo_world =
    (inr tt,
     World (<["out.scad" := RegularFile
               ("// Auto-generated from input.txt" ++ nl
                ++ "pts = [" ++ nl
                ++ "    [1.000000, 2.000000]," ++ nl
                ++ "    [3.000000, 4.000000]," ++ nl
                ++ "    [5.500000, 6.250000]" ++ nl
                ++ "];" ++ nl)]> (files demo_world)) EmptyString).
Proof. vm_compute. reflexivity. Qed.

(** ** Lines that yield nothing *)

(** C2. A line that is empty once stripped (a whitespace-only line is),
    whose first character once stripped is [#], or that contains [...],
    adds no coordinate and raises nothing, whatever else it holds: the
    loop body leaves [pts] as it was, and the scan of a file goes as if
    the line were not there. *)
Theorem C2_filtered_line_yields_nothing (line : string) :
  filtered line ->
  (forall pts, loop_body pts line = inr pts)
  /\ point_of_line line = None
  /\ (forall pts before after,
        scan pts (before ++ line :: after) = scan pts (before ++ after)).
Proof.
  intros H%filtered_not_kept. split; [|split].
  - intros pts. now apply loop_body_skip.
  - now apply point_of_line_skip.
  - apply scan_skip_line. intros pts. now apply loop_body_skip.
Qed.

Lemma C2_filtered_line_yields_nothing_witness :
  filtered ("1, 2 ... 3 abc" ++ nl)
  /\ (forall pts, loop_body pts ("1, 2 ... 3 abc" ++ nl) = inr pts)
  /\ point_of_line ("1, 2 ... 3 abc" ++ nl) = None
  /\ (forall pts before after,
        scan pts (before ++ ("1, 2 ... 3 abc" ++ nl) :: after) = scan pts (before ++ after)).
Proof.
  assert (filtered ("1, 2 ... 3 abc" ++ nl)) as H.
  { right; right; right. exists "1, 2 ", (" 3 abc" ++ nl). reflexivity. }
  split; [exact H|].
  apply (C2_filtered_line_yields_nothing ("1, 2 ... 3 abc" ++ nl) H).
Defined.

(** C5. A kept line with fewer than two tokens, commas counting as
    spaces, adds no coordinate and raises nothing, and the loop goes on
    with the next line. *)
Theorem C5_short_line_yields_nothing (line : string) :
  kept line = true ->
  (length (tokens line) < 2)%nat ->
  (forall pts, loop_body pts line = inr pts)
  /\ point_of_line line = None
  /\ (forall pts before after,
        scan pts (before ++ line :: after) = scan pts (before ++ after)).
Proof.
  intros _ Hlen. split; [|split].
  - intros pts. now apply loop_body_short.
  - now apply point_of_line_short.
  - apply scan_skip_line. intros pts. now apply loop_body_short.
Qed.

Lemma C5_short_line_yields_nothing_witness :
  (forall pts, loop_body pts (" ,abc, " ++ nl) = inr pts)
  /\ point_of_line (" ,abc, " ++ nl) = None
  /\ (forall pts before after,
        scan pts (before ++ (" ,abc, " ++ nl) :: after) = scan pts (before ++ after)).
Proof.
  apply (C5_short_line_yields_nothing (" ,abc, " ++ nl)).
  - reflexivity.
  - vm_compute. lia.
Defined.

(** ** The two numbers of a line *)

(** C3. On a kept line with two tokens or more, the row appended is that
    of the first two tokens read as numbers, and the tokens after them
    play no part: when both parse the row is appended whatever follows,
    when one does not the body raises for that token whatever follows,
    and any other kept line with the same first two tokens does the
    same. *)
Theorem C3_first_two_tokens (pts : list string) (line t1 t2 : string) (rest : list string) :
  kept line = true ->
  tokens line = t1 :: t2 :: rest ->
  loop_body pts line =
    match Float.float t1, Float.float t2 with
    | Some x, Some y =>
        inr (pts ++ [("    [" ++ Float.format_6f x ++ ", " ++ Float.format_6f y ++ "]")%string])%list
    | None, _ => inl (ValueError (CouldNotConvert t1))
    | Some _, None => inl (ValueError (CouldNotConvert t2))
    end
  /\ (forall line' rest',
        kept line' = true ->
        tokens line' = t1 :: t2 :: rest' ->
        loop_body pts line' = loop_body pts line).
Proof.
  intros Hkept Htok. split.
  - now apply loop_body_pair with (rest := rest).
  - intros line' rest' Hkept' Htok'.
    rewrite (loop_body_pair pts line' t1 t2 rest' Hkept' Htok').
    now rewrite (loop_body_pair pts line t1 t2 rest Hkept Htok).
Qed.

Lemma C3_first_two_tokens_witness :
  (loop_body [] ("5.5 6.25 extra" ++ nl) = inr ["    [5.500000, 6.250000]"]
   /\ (forall line' rest',
         kept line' = true ->
         tokens line' = "5.5" :: "6.25" :: rest' ->
         loop_body [] line' = loop_body [] ("5.5 6.25 extra" ++ nl)))
  /\ (loop_body [] ("abc 2.0 3.0 4.0" ++ nl) = inl (ValueError (CouldNotConvert "abc"))
      /\ (forall line' rest',
            kept line' = true ->
            tokens line' = "abc" :: "2.0" :: rest' ->
            loop_body [] line' = loop_body [] ("abc 2.0 3.0 4.0" ++ nl))).
Proof.
  split.
  - apply (C3_first_two_tokens [] ("5.5 6.25 extra" ++ nl) "5.5" "6.25" ["extra"]);
      reflexivity.
  - apply (C3_first_two_tokens [] ("abc 2.0 3.0 4.0" ++ nl) "abc" "2.0" ["3.0"; "4.0"]);
      reflexivity.
Defined.

(** ** Failures *)

(** C4. When the source can be read and one of its kept lines has two
    tokens or more of which the first two do not both parse as numbers,
    the conversion ends with the [ValueError] of [float], nothing having
    caught it, and the world is as before: the destination was not
    opened, so no output file has appeared. *)
Theorem C4_bad_number_aborts
    (infile varname outfile text line t1 t2 : string)
    (before after rest : list string) (w : world) :
  files w !! infile = Some (RegularFile text) ->
  Str.lines text = (before ++ line :: after)%list ->
  kept line = true ->
  tokens line = t1 :: t2 :: rest ->
  Float.float t1 = None \/ Float.float t2 = None ->
  exists tok,
    txt_to_scad infile varname outfile w = (inl (ValueError (CouldNotConvert tok)), w).
Proof.
  intros Hin Hlines Hkept Htok Hbad.
  rewrite txt_to_scad_run, Hin, Hlines, scan_app.
  destruct (scan [] before) as [e|pts] eqn:Hscan; simpl.
  - apply scan_raises in Hscan as [tok ->]. now exists tok.
  - rewrite (loop_body_pair pts line t1 t2 rest Hkept Htok).
    destruct (Float.float t1) as [x|]; [|now exists t1].
    destruct (Float.float t2) as [y|]; [|now exists t2].
    now destruct Hbad.
Qed.

Lemma C4_bad_number_aborts_witness :
  exists tok,
    txt_to_scad "in.txt" "pts" "out.scad"
      (World {[ "in.txt" := RegularFile ("1 2" ++ nl ++ "abc 2.0" ++ nl ++ "3 4" ++ nl) ]}
             EmptyString)
    = (inl (ValueError (CouldNotConvert tok)),
       World {[ "in.txt" := RegularFile ("1 2" ++ nl ++ "abc 2.0" ++ nl ++ "3 4" ++ nl) ]}
             EmptyString).
Proof.
  apply (C4_bad_number_aborts "in.txt" "pts" "out.scad"
           ("1 2" ++ nl ++ "abc 2.0" ++ nl ++ "3 4" ++ nl) ("abc 2.0" ++ nl) "abc" "2.0"
           ["1 2" ++ nl] ["3 4" ++ nl] []).
  - reflexivity.
  - reflexivity.
  - reflexivity.
  - reflexivity.
  - left. reflexivity.
Defined.

(** C10. When the conversion ends with the [ValueError] of a number that
    does not parse, or with the error of opening the source, the world is
    as it was before the call: a file that was at the destination path
    still has its contents, and none has been created there. *)
Theorem C10_failure_leaves_destination
    (infile varname outfile : string) (e : exn) (w w' : world) :
  txt_to_scad infile varname outfile w = (inl e, w') ->
  (exists why, e = ValueError why)
  \/ e = FileNotFoundError infile \/ e = IsADirectoryError infile ->
  w' = w /\ files w' !! outfile = files w !! outfile.
Proof.
  rewrite txt_to_scad_run. intros Hrun _.
  assert (w' = w) as ->; [|now split].
  destruct (files w !! infile) as [[text|]|]; [|congruence..].
  destruct (scan [] (Str.lines text)) as [e'|pts]; [congruence|].
  destruct (files w !! outfile) as [[?|]|]; congruence.
Qed.

Lemma C10_failure_leaves_destination_witness :
  let w := World {[ "in.txt" := RegularFile ("1 2" ++ nl ++ "3 x" ++ nl);
                    "out.scad" := RegularFile "old" ]} EmptyString in
  snd (txt_to_scad "in.txt" "pts" "out.scad" w) = w
  /\ files (snd (txt_to_scad "in.txt" "pts" "out.scad" w)) !! "out.scad" = files w !! "out.scad".
Proof.
  intros w.
  apply (C10_failure_leaves_destination "in.txt" "pts" "out.scad"
           (ValueError (CouldNotConvert "x")) w).
  - vm_compute. reflexivity.
  - left. exists (CouldNotConvert "x"). reflexivity.
Defined.

(** ** An empty array *)

(** C7. When every line of a readable source is filtered out or has
    fewer than two tokens, and the destination can be written, the
    conversion succeeds and the destination holds, after the comment
    line, [varname = [], an empty line and [];]. *)
Theorem C7_no_coordinates
    (infile varname outfile text : string) (w : world) :
  files w !! infile = Some (RegularFile text) ->
  files w !! outfile <> Some Directory ->
  Forall (fun line => kept line = false \/ (length (tokens line) < 2)%nat)
         (Str.lines text) ->
  exists w',
    txt_to_scad infile varname outfile w = (inr tt, w')
    /\ files w' !! outfile =
         Some (RegularFile
                 ("// Auto-generated from " ++ infile ++ nl
                  ++ varname ++ " = [" ++ nl ++ nl ++ "];" ++ nl)).
Proof.
  intros Hin Hout Hall.
  assert (forall pts, scan pts (Str.lines text) = inr pts) as Hscan.
  { induction Hall as [|line lines Hline _ IH]; intros pts; simpl; [reflexivity|].
    assert (loop_body pts line = inr pts) as ->
      by (destruct Hline; [now apply loop_body_skip | now apply loop_body_short]).
    apply IH. }
  exists (written infile varname outfile [] w). split.
  - rewrite txt_to_scad_run, Hin, Hscan.
    destruct (files w !! outfile) as [[?|]|]; congruence.
  - apply lookup_insert_eq.
Qed.

Lemma C7_no_coordinates_witness :
  exists w',
    txt_to_scad "in.txt" "pts" "out.scad"
      (World {[ "in.txt" := RegularFile ("# none" ++ nl ++ nl ++ "7" ++ nl) ]} EmptyString)
    = (inr tt, w')
    /\ files w' !! "out.scad" =
         Some (RegularFile
                 ("// Auto-generated from " ++ "in.txt" ++ nl
                  ++ "pts" ++ " = [" ++ nl ++ nl ++ "];" ++ nl)).
Proof.
  apply (C7_no_coordinates "in.txt" "pts" "out.scad" ("# none" ++ nl ++ nl ++ "7" ++ nl)).
  - reflexivity.
  - vm_compute. discriminate.
  - vm_compute. repeat constructor; vm_compute; lia.
Defined.

(** ** The command line *)

(** C8. With [sys.argv] of a length other than four (the script and three
    arguments) the script prints the usage line on standard output and
    exits with status 1, the files being neither read nor changed; with
    three arguments it runs the conversion on them. *)
Theorem C8_argument_count (argv : list string) (w : world) :
  (length argv <> 4%nat ->
     main argv w = (inl (SystemExit 1), World (files w) (stdout w ++ usage ++ nl))
     /\ exit_status (fst (main argv w)) <> 0)
  /\ (length argv = 4%nat ->
        exists script a b c,
          argv = [script; a; b; c] /\ main argv w = txt_to_scad a b c w).
Proof.
  split.
  - intros Hlen%Nat.eqb_neq.
    assert (main argv w = (inl (SystemExit 1), World (files w) (stdout w ++ usage ++ nl))) as ->.
    { unfold main, mbind, M_bind. now rewrite Hlen. }
    split; [reflexivity | discriminate].
  - intros Hlen.
    destruct argv as [|script [|a [|b [|c [|d argv]]]]]; try discriminate.
    exists script, a, b, c. split; [reflexivity|].
    unfold main, mbind, M_bind. simpl.
    now destruct (txt_to_scad a b c w) as [[e|[]] w'].
Qed.

Lemma C8_argument_count_witness :
  (main ["txt_to_scad.py"; "input.txt"; "pts"] demo_world
     = (inl (SystemExit 1), World (files demo_world) (stdout demo_world ++ usage ++ nl))
   /\ exit_status (fst (main ["txt_to_scad.py"; "input.txt"; "pts"] demo_world)) <> 0)
  /\ (exists script a b c,
        ["txt_to_scad.py"; "input.txt"; "pts"; "out.scad"] = [script; a; b; c]
        /\ main ["txt_to_scad.py"; "input.txt"; "pts"; "out.scad"] demo_world
           = txt_to_scad a b c demo_world).
Proof.
  split.
  - apply (C8_argument_count ["txt_to_scad.py"; "input.txt"; "pts"] demo_world).
    simpl. lia.
  - apply (C8_argument_count ["txt_to_scad.py"; "input.txt"; "pts"; "out.scad"] demo_world).
    reflexivity.
Defined.

(** ** Reproducibility *)

(** C9. Two successful conversions of the same source text, under the same
    source path and variable name, leave the same text at their
    destinations, whatever else the two worlds hold and wherever the
    destinations are: the output depends on the source text, the source
    path and the variable name only. *)
Theorem C9_same_input_same_output
    (infile varname out1 out2 text : string) (w1 w2 w1' w2' : world) :
  files w1 !! infile = Some (RegularFile text) ->
  files w2 !! infile = Some (RegularFile text) ->
  txt_to_scad infile varname out1 w1 = (inr tt, w1') ->
  txt_to_scad infile varname out2 w2 = (inr tt, w2') ->
  exists content,
    files w1' !! out1 = Some (RegularFile content)
    /\ files w2' !! out2 = Some (RegularFile content).
Proof.
  intros H1 H2. rewrite !txt_to_scad_run, H1, H2.
  destruct (scan [] (Str.lines text)) as [e|pts]; [discriminate|].
  intros R1 R2. exists (scad_text infile varname pts).
  assert (w1' = written infile varname out1 pts w1) as ->
    by (destruct (files w1 !! out1) as [[?|]|]; congruence).
  assert (w2' = written infile varname out2 pts w2) as ->
    by (destruct (files w2 !! out2) as [[?|]|]; congruence).
  split; apply lookup_insert_eq.
Qed.

Lemma C9_same_input_same_output_witness :
  let w2 := World {[ "input.txt" := RegularFile demo;
                     "b.scad" := RegularFile "stale" ]} "log" in
  exists content,
    files (snd (txt_to_scad "input.txt" "pts" "a.scad" demo_world)) !! "a.scad"
      = Some (RegularFile content)
    /\ files (snd (txt_to_scad "input.txt" "pts" "b.scad" w2)) !! "b.scad"
      = Some (RegularFile content).
Proof.
  intros w2.
  apply (C9_same_input_same_output "input.txt" "pts" "a.scad" "b.scad" demo demo_world w2).
  - reflexivity.
  - reflexivity.
  - vm_compute. reflexivity.
  - vm_compute. reflexivity.
Defined.

(** ** Numbers and their six decimals *)

Section Numbers.

Lemma digit_char_digit (d : Z) :
  0 <= d <= 9 ->
  Str.is_digit (Float.digit_char d) = true /\ Float.digit_of (Float.digit_char d) = d.
Proof.
  intros H.
  assert (d = 0 \/ d = 1 \/ d = 2 \/ d = 3 \/ d = 4 \/ d = 5 \/ d = 6 \/ d = 7
          \/ d = 8 \/ d = 9) as Hd by lia.
  repeat (destruct Hd as [-> | Hd]; [split; reflexivity|]).
  subst d. split; reflexivity.
Qed.

Lemma mod10_range (n : Z) : 0 <= n mod 10 <= 9.
Proof. pose proof (Z.mod_pos_bound n 10). lia. Qed.

Lemma all_digits_app (a b : string) :
  all_digits (a ++ b) = all_digits a && all_digits b.
Proof.
  induction a as [|c a IH]; simpl; [reflexivity|].
  now rewrite IH, andb_assoc.
Qed.

Lemma length_app (a b : string) :
  String.length (a ++ b) = (String.length a + String.length b)%nat.
Proof. induction a as [|c a IH]; simpl; [reflexivity | now rewrite IH]. Qed.

Lemma digits_value_from_app (a b : string) :
  forall acc,
    Float.digits_value_from acc (a ++ b)
    = Float.digits_value_from (Float.digits_value_from acc a) b.
Proof. induction a as [|c a IH]; intros acc; simpl; [reflexivity | apply IH]. Qed.

Lemma digits_value_from_nonneg (s : string) :
  all_digits s = true ->
  forall acc, 0 <= acc -> 0 <= Float.digits_value_from acc s.
Proof.
  induction s as [|c s IH]; simpl; intros Hs acc Hacc; [exact Hacc|].
  apply andb_true_iff in Hs as [Hc Hs]. apply IH; [exact Hs|].
  unfold Str.is_digit in Hc. unfold Float.digit_of.
  apply andb_true_iff in Hc as [Hlo%N.leb_le _]. lia.
Qed.

(** *** The fixed-width fraction *)

Lemma fixed_digits_length (k : nat) :
  forall n, String.length (Float.fixed_digits k n) = k.
Proof.
  induction k as [|k IH]; intros n; simpl; [reflexivity|].
  rewrite length_app, IH. simpl. lia.
Qed.

Lemma fixed_digits_digits (k : nat) :
  forall n, all_digits (Float.fixed_digits k n) = true.
Proof.
  induction k as [|k IH]; intros n; simpl; [reflexivity|].
  rewrite all_digits_app, IH. simpl.
  now rewrite (proj1 (digit_char_digit _ (mod10_range n))).
Qed.


(** *** The integer part *)

Lemma decimal_from_step (fuel : nat) (n : Z) (acc : string) :
  Float.decimal_from (S fuel) n acc
  = if n / 10 =? 0 then String (Float.digit_char (n mod 10)) acc
    else Float.decimal_from fuel (n / 10) (String (Float.digit_char (n mod 10)) acc).
Proof. reflexivity. Qed.

Lemma decimal_from_spec (fuel : nat) :
  forall n acc,
    0 <= n < 2 ^ Z.of_nat (S fuel) ->
    exists d,
      Float.decimal_from (S fuel) n acc = d ++ acc
      /\ d <> EmptyString
      /\ all_digits d = true
      /\ forall a, Float.digits_value_from a d
                   = a * 10 ^ Z.of_nat (String.length d) + n.
Proof.
  induction fuel as [|fuel IH]; intros n acc Hn; rewrite decimal_from_step;
    pose proof (digit_char_digit _ (mod10_range n)) as [Hdig Hval];
    pose proof (Z.div_mod n 10 ltac:(lia)) as Hdm;
    destruct (Z.eqb_spec (n / 10) 0) as [Hq|Hq].
  1, 3: exists (String (Float.digit_char (n mod 10)) EmptyString);
    split; [reflexivity|]; split; [discriminate|]; split;
    [simpl; now rewrite Hdig | intros a; simpl; rewrite Hval; lia].
  - exfalso. apply Hq. apply Z.div_small. simpl in Hn. lia.
  - destruct (IH (n / 10) (String (Float.digit_char (n mod 10)) acc))
      as [d [Hd [Hne [Hall Hv]]]].
    { split; [apply Z.div_pos; lia|].
      apply Z.div_lt_upper_bound; [lia|].
      rewrite (Nat2Z.inj_succ (S fuel)), Z.pow_succ_r in Hn by lia. lia. }
    exists (d ++ String (Float.digit_char (n mod 10)) EmptyString).
    split; [rewrite Hd, append_assoc; reflexivity|].
    split; [destruct d; [congruence|discriminate]|].
    split; [rewrite all_digits_app, Hall; simpl; now rewrite Hdig|].
    intros a. rewrite digits_value_from_app, Hv. simpl.
    rewrite Hval, length_app. simpl String.length.
    rewrite Nat2Z.inj_add, Z.pow_add_r by lia.
    change (10 ^ Z.of_nat 1) with 10. lia.
Qed.

Lemma decimal_spec (n : Z) :
  0 <= n ->
  exists d,
    Float.decimal n = d
    /\ d <> EmptyString
    /\ all_digits d = true
    /\ forall a, Float.digits_value_from a d
                 = a * 10 ^ Z.of_nat (String.length d) + n.
Proof.
  intros Hn. unfold Float.decimal.
  destruct (decimal_from_spec (Z.to_nat (Z.log2 n)) n EmptyString)
    as [d [Hd H]].
  - split; [exact Hn|].
    rewrite Nat2Z.inj_succ, Z2Nat.id by apply Z.log2_nonneg.
    destruct (Z.eq_dec n 0) as [->|Hne]; [reflexivity|].
    apply Z.log2_spec. lia.
  - exists d. split; [|exact H]. now rewrite Hd, append_empty_r.
Qed.

(** *** Rounding *)

Lemma round_half_even_nearest (n d : Z) :
  0 < d -> 2 * Z.abs (Float.round_half_even n d * d - n) <= d.
Proof.
  intros Hd. unfold Float.round_half_even.
  pose proof (Z.div_mod n d ltac:(lia)) as Hdm.
  pose proof (Z.mod_pos_bound n d Hd) as Hr.
  destruct (Z.compare_spec (2 * (n mod d)) d) as [Hc|Hc|Hc];
    [destruct (Z.even (n / d))|..]; nia.
Qed.


Lemma round_half_even_nonneg (n d : Z) :
  0 <= n -> 0 < d -> 0 <= Float.round_half_even n d.
Proof.
  intros Hn Hd. unfold Float.round_half_even.
  pose proof (Z.div_pos n d Hn Hd).
  destruct (_ ?= _); [destruct (Z.even _)|..]; lia.
Qed.

(** *** What [float] returns *)

Lemma span_digits_digits (s : string) : all_digits (fst (Float.span_digits s)) = true.
Proof.
  induction s as [|c s IH]; simpl; [reflexivity|].
  destruct (Str.is_digit c) eqn:Hc; [|reflexivity].
  destruct (Float.span_digits s) as [d r]. simpl in *. now rewrite Hc, IH.
Qed.

Lemma take_fraction_digits (s : string) :
  all_digits (fst (Float.take_fraction s)) = true.
Proof.
  destruct s as [|c r]; simpl; [reflexivity|].
  destruct (Ascii.eqb c "."); [apply span_digits_digits | reflexivity].
Qed.

Lemma of_ratio_nonneg (sg neg : bool) (num den m e : Z) :
  0 <= num -> 0 < den ->
  Float.of_ratio sg num den = Finite neg m e -> 0 <= m.
Proof.
  intros Hn Hd. unfold Float.of_ratio.
  destruct (num =? 0); [intros [= _ <- _]; lia|].
  destruct (_ <=? _); [discriminate|].
  intros [= _ <- _]. apply round_half_even_nonneg.
  - apply Z.mul_nonneg_nonneg; [exact Hn | apply Z.pow_nonneg; lia].
  - apply Z.mul_pos_pos; [exact Hd | apply Z.pow_pos_nonneg; lia].
Qed.

Lemma strtod_nonneg (s rest : string) (neg : bool) (m e : Z) :
  Float.strtod s = Some (Finite neg m e, rest) -> 0 <= m.
Proof.
  unfold Float.strtod.
  destruct (Float.take_sign s) as [sg s1].
  pose proof (span_digits_digits s1) as Hip.
  destruct (Float.span_digits s1) as [ip s2].
  pose proof (take_fraction_digits s2) as Hfp.
  destruct (Float.take_fraction s2) as [fp s3].
  destruct (_ && _); [discriminate|].
  destruct (Float.take_exponent s3) as [ex s4].
  intros [= H _]. revert H. apply of_ratio_nonneg.
  - apply Z.mul_nonneg_nonneg; [|apply Z.pow_nonneg; lia].
    apply digits_value_from_nonneg; [|lia].
    simpl in Hip, Hfp. now rewrite all_digits_app, Hip, Hfp.
  - apply Z.pow_pos_nonneg; lia.
Qed.

Lemma parse_inf_or_nan_not_finite (s rest : string) (neg : bool) (m e : Z) :
  Float.parse_inf_or_nan s <> Some (Finite neg m e, rest).
Proof.
  unfold Float.parse_inf_or_nan.
  destruct (Float.take_sign s) as [sg s1].
  destruct (Float.match_nocase "inf" s1) as [r|].
  - destruct (Float.match_nocase "inity" r); discriminate.
  - destruct (Float.match_nocase "nan" s1); discriminate.
Qed.

Lemma float_finite_nonneg (tok : string) (neg : bool) (m e : Z) :
  Float.float tok = Some (Finite neg m e) -> 0 <= m.
Proof.
  unfold Float.float.
  destruct (Float.drop_underscores _ tok) as [s1|]; [|discriminate].
  cbn [mbind option_bind].
  destruct (Float.strtod _) as [[x rest]|] eqn:Hs.
  - destruct (Str.is_empty rest); [|discriminate].
    intros [= ->]. eapply strtod_nonneg, Hs.
  - destruct (Float.parse_inf_or_nan _) as [[x rest]|] eqn:Hp; [|discriminate].
    destruct (Str.is_empty rest); [|discriminate].
    intros [= ->]. now apply parse_inf_or_nan_not_finite in Hp.
Qed.

(** *** The layout of a finite number *)


End Numbers.

(** [float("1")] printed with [.6f]. *)
Example one_is_printed_with_six_zeros :
  Float.format_6f <$> Float.float "1" = Some "1.000000".
Proof. vm_compute. reflexivity. Qed.

(** The rounding is that of the double read, not of the decimal text, and
    a tie goes to the even digit: [0.0000025] is read as a double just
    above the tie and goes up, [0.0078125] is read exactly and goes down. *)
Example rounding_follows_the_double :
  Float.format_6f <$> Float.float "0.0000025" = Some "0.000003"
  /\ Float.format_6f <$> Float.float "0.0078125" = Some "0.007812"
  /\ Float.format_6f <$> Float.float "0.0234375" = Some "0.023438".
Proof. vm_compute. repeat split. Qed.


(** ** More on the runs of the conversion *)

Section Outcomes.

Lemma loop_body_culprit (pts : list string) (line : string) :
  loop_body pts line =
    match culprit line with
    | Some tok => inl (ValueError (CouldNotConvert tok))
    | None =>
        inr (pts ++ match point_of_line line with
                    | Some p => [pair_line p]
                    | None => []
                    end)%list
    end.
Proof.
  rewrite loop_body_cases. unfold culprit, point_of_line.
  destruct (kept line); [|now rewrite app_nil_r].
  destruct (tokens line) as [|t1 [|t2 rest]]; try now rewrite app_nil_r.
  destruct (Float.float t1); [|reflexivity].
  destruct (Float.float t2); reflexivity.
Qed.

Lemma scan_first_culprit (lines : list string) :
  forall pts,
    scan pts lines =
      match head (omap culprit lines) with
      | Some tok => inl (ValueError (CouldNotConvert tok))
      | None => inr (pts ++ map pair_line (retained lines))%list
      end.
Proof.
  induction lines as [|line lines IH]; intros pts.
  - simpl. now rewrite app_nil_r.
  - change (scan pts (line :: lines))
      with (pts' ← loop_body pts line; scan pts' lines).
    change (omap culprit (line :: lines))
      with (match culprit line with
            | Some tok => tok :: omap culprit lines
            | None => omap culprit lines
            end).
    unfold retained.
    change (omap point_of_line (line :: lines))
      with (match point_of_line line with
            | Some p => p :: omap point_of_line lines
            | None => omap point_of_line lines
            end).
    rewrite loop_body_culprit.
    destruct (culprit line) as [tok|]; [reflexivity|].
    cbn [mbind result_bind]. rewrite IH. unfold retained.
    destruct (head (omap culprit lines)); [reflexivity|].
    destruct (point_of_line line); cbn [map]; now rewrite <- List.app_assoc.
Qed.

End Outcomes.


(** X3. When the source is a file and some line makes the loop raise, the
    conversion ends with the [ValueError] of the first such line, for the
    first of its two tokens that is not a number, and the world is as
    before; lines after it are not looked at. *)
Theorem txt_to_scad_reports_first_bad_token
    (infile varname outfile text line tok : string)
    (before after : list string) (w : world) :
  files w !! infile = Some (RegularFile text) ->
  Str.lines text = (before ++ line :: after)%list ->
  omap culprit before = [] ->
  culprit line = Some tok ->
  txt_to_scad infile varname outfile w = (inl (ValueError (CouldNotConvert tok)), w).
Proof.
  intros Hin Hlines Hbefore Hline.
  rewrite txt_to_scad_run, Hin, scan_first_culprit, Hlines.
  rewrite omap_app, Hbefore. simpl. now rewrite Hline.
Qed.

Lemma txt_to_scad_reports_first_bad_token_witness :
  txt_to_scad "in.txt" "pts" "out.scad"
    (World {[ "in.txt" := RegularFile ("1 2" ++ nl ++ "3 x y" ++ nl ++ "z 4" ++ nl) ]}
           EmptyString)
  = (inl (ValueError (CouldNotConvert "x")),
     World {[ "in.txt" := RegularFile ("1 2" ++ nl ++ "3 x y" ++ nl ++ "z 4" ++ nl) ]}
           EmptyString).
Proof.
  apply (txt_to_scad_reports_first_bad_token "in.txt" "pts" "out.scad"
           ("1 2" ++ nl ++ "3 x y" ++ nl ++ "z 4" ++ nl) ("3 x y" ++ nl) "x"
           ["1 2" ++ nl] ["z 4" ++ nl]); reflexivity.
Defined.

(** X4. Source and destination may be the same path: the listing is read
    to its end before the path is opened for writing, so a listing
    without a bad line is replaced by the array made from it. *)
Theorem txt_to_scad_in_place (path varname text : string) (w : world) :
  files w !! path = Some (RegularFile text) ->
  omap culprit (Str.lines text) = [] ->
  txt_to_scad path varname path w =
    (inr tt,
     World (<[path := RegularFile
               ("// Auto-generated from " ++ path ++ nl
                ++ varname ++ " = [" ++ nl
                ++ array_body (map pair_line (retained (Str.lines text)))
                ++ nl ++ "];" ++ nl)]> (files w))
           (stdout w)).
Proof.
  intros Hin Hc. rewrite txt_to_scad_run, Hin, scan_first_culprit, Hc.
  reflexivity.
Qed.

Lemma txt_to_scad_in_place_witness :
  txt_to_scad "input.txt" "pts" "input.txt" demo_world =
    (inr tt,
     World (<["input.txt" := RegularFile
               ("// Auto-generated from " ++ "input.txt" ++ nl
                ++ "pts" ++ " = [" ++ nl
                ++ array_body (map pair_line (retained (Str.lines demo)))
                ++ nl ++ "];" ++ nl)]> (files demo_world))
           (stdout demo_world)).
Proof.
  apply (txt_to_scad_in_place "input.txt" "pts" demo demo_world); reflexivity.
Defined.

(** X5. The exit status of the script is 0 or 1, and it is 0 exactly when
    the script was given three arguments and the conversion succeeded:
    the usage error, a missing source, a bad number and an unwritable
    destination all give 1. *)
Theorem main_exit_status (argv : list string) (w : world) :
  (exit_status (fst (main argv w)) = 0 \/ exit_status (fst (main argv w)) = 1)
  /\ (exit_status (fst (main argv w)) = 0
      <-> length argv = 4%nat /\ fst (main argv w) = inr tt).
Proof.
  destruct (decide (length argv = 4%nat)) as [Hlen|Hlen].
  - destruct argv as [|script [|a [|b [|c [|d argv]]]]]; try discriminate.
    assert (main [script; a; b; c] w = txt_to_scad a b c w) as ->.
    { unfold main, mbind, M_bind. simpl.
      now destruct (txt_to_scad a b c w) as [[e|[]] w']. }
    rewrite txt_to_scad_run.
    destruct (files w !! a) as [[text|]|]; simpl;
      [|split; [now right | split; [discriminate | now intros [_ ?]]]..].
    destruct (scan [] (Str.lines text)) as [e|pts] eqn:Hscan; simpl.
    + apply scan_raises in Hscan as [tok ->]. simpl.
      split; [now right | split; [discriminate | now intros [_ ?]]].
    + destruct (files w !! c) as [[?|]|]; simpl.
      * split; [now left | split; [now split | reflexivity]].
      * split; [now right | split; [discriminate | now intros [_ ?]]].
      * split; [now left | split; [now split | reflexivity]].
  - pose proof Hlen as Hneq%Nat.eqb_neq.
    assert (main argv w = (inl (SystemExit 1), World (files w) (stdout w ++ usage ++ nl))) as ->
      by (unfold main, mbind, M_bind; now rewrite Hneq).
    simpl. split; [now right | split; [discriminate | now intros [? _]]].
Qed.

(** ** Tokens and blanks *)

Section Tokens.

Lemma solid_app (a b : string) : solid (a ++ b) = solid a && solid b.
Proof.
  induction a as [|c a IH]; simpl; [reflexivity|].
  now rewrite IH, !andb_assoc.
Qed.

Lemma split_replace_solid (s : string) :
  forall tok,
    solid tok = true ->
    Forall (fun t => t <> EmptyString /\ solid t = true)
           (Str.split_from tok (Str.replace "," " " s)).
Proof.
  induction s as [|c s IH]; intros tok Htok; simpl.
  - destruct tok; simpl; [constructor|].
    constructor; [split; [discriminate | exact Htok] | constructor].
  - destruct (Ascii.eqb_spec c ",") as [->|Hc].
    + change (Str.isspace " ") with true. cbn iota.
      destruct tok; cbn [Str.is_empty]; [now apply IH|].
      constructor; [split; [discriminate | exact Htok] | now apply IH].
    + destruct (Str.isspace c) eqn:Hsp.
      * destruct tok; cbn [Str.is_empty]; [now apply IH|].
        constructor; [split; [discriminate | exact Htok] | now apply IH].
      * apply IH. rewrite solid_app, Htok. simpl. rewrite Hsp.
        now apply Ascii.eqb_neq in Hc as ->.
Qed.

Lemma all_space_lstrip (a s : string) :
  all_space a = true -> Str.lstrip (a ++ s) = Str.lstrip s.
Proof.
  induction a as [|c a IH]; simpl; [reflexivity|].
  intros [Hc Ha]%andb_true_iff. rewrite Hc. now apply IH.
Qed.

Lemma all_space_rstrip_empty (b : string) :
  all_space b = true -> Str.rstrip b = EmptyString.
Proof.
  induction b as [|c b IH]; simpl; [reflexivity|].
  intros [Hc Hb]%andb_true_iff. now rewrite (IH Hb), Hc.
Qed.

Lemma all_space_rstrip (s b : string) :
  all_space b = true -> Str.rstrip (s ++ b) = Str.rstrip s.
Proof.
  intros Hb. induction s as [|c s IH]; simpl.
  - now apply all_space_rstrip_empty.
  - now rewrite IH.
Qed.

Lemma all_space_strip (a s b : string) :
  all_space a = true -> all_space b = true ->
  Str.strip (a ++ s ++ b) = Str.strip s.
Proof.
  intros Ha Hb. unfold Str.strip. rewrite (all_space_lstrip a _ Ha).
  induction s as [|c s IH]; simpl.
  - rewrite <- (append_empty_r b), (all_space_lstrip b _ Hb). simpl.
    reflexivity.
  - destruct (Str.isspace c); [exact IH|].
    change (String c (s ++ b)) with (String c s ++ b).
    now apply all_space_rstrip.
Qed.

Lemma lines_from_app (n : nat) :
  forall a cur b,
    (String.length a <= n)%nat ->
    Str.lines_from cur (a ++ String Str.LF b)
    = (Str.lines_from cur (a ++ String Str.LF EmptyString)
       ++ Str.lines_from EmptyString b)%list.
Proof.
  induction n as [|n IH]; intros a cur b Hlen.
  - destruct a; [reflexivity | simpl in Hlen; lia].
  - destruct a as [|c a]; [reflexivity|].
    simpl in Hlen. simpl.
    destruct (Ascii.eqb c Str.LF).
    + simpl. f_equal. apply IH. lia.
    + destruct (Ascii.eqb c Str.CR).
      * simpl. f_equal.
        destruct a as [|c' a]; [reflexivity|]. simpl.
        destruct (Ascii.eqb c' Str.LF).
        -- apply IH. simpl in Hlen. lia.
        -- apply (IH (String c' a)). lia.
      * apply IH. lia.
Qed.

End Tokens.

(** X6. Every token of a line is non-empty and holds neither whitespace
    nor a comma: nothing else is ever handed to [float]. *)
Theorem tokens_are_solid (line : string) :
  Forall (fun t => t <> EmptyString /\ solid t = true) (tokens line).
Proof. unfold tokens, Str.split. now apply split_replace_solid. Qed.

(** X7. Whitespace before and after a line, the line terminator included,
    plays no part: the body does to [pts] what it does for the bare
    line. *)
Theorem loop_body_ignores_surrounding_blanks (pts : list string) (a line b : string) :
  all_space a = true ->
  all_space b = true ->
  loop_body pts (a ++ line ++ b) = loop_body pts line.
Proof.
  intros Ha Hb. unfold loop_body. now rewrite (all_space_strip a line b Ha Hb).
Qed.

Lemma loop_body_ignores_surrounding_blanks_witness :
  loop_body ["row"] ("   " ++ "1.5,2" ++ String Str.CR nl) = loop_body ["row"] "1.5,2".
Proof.
  apply (loop_body_ignores_surrounding_blanks ["row"] "   " "1.5,2" (String Str.CR nl));
    reflexivity.
Defined.

(** X8. Listings compose: when the first ends with a line break, the
    lines of two listings put one after the other are the lines of the
    first followed by the lines of the second, so the loop run on the
    whole is the loop run on the first and then on the second, and the
    coordinates retained are those of the first followed by those of the
    second. *)
Theorem listings_compose (a b : string) :
  Str.lines (a ++ nl ++ b) = (Str.lines (a ++ nl) ++ Str.lines b)%list
  /\ (forall pts,
        scan pts (Str.lines (a ++ nl ++ b))
        = (pts' ← scan pts (Str.lines (a ++ nl)); scan pts' (Str.lines b)))
  /\ retained (Str.lines (a ++ nl ++ b))
     = (retained (Str.lines (a ++ nl)) ++ retained (Str.lines b))%list.
Proof.
  assert (Str.lines (a ++ nl ++ b) = (Str.lines (a ++ nl) ++ Str.lines b)%list) as H
    by (apply (lines_from_app (String.length a)); lia).
  split; [exact H|]. rewrite H. split.
  - intros pts. apply scan_app.
  - unfold retained. apply omap_app.
Qed.

(** ** Plain decimal tokens *)

Section PlainDecimals.

Lemma plain_char (c : ascii) :
  Str.is_digit c || Ascii.eqb c "-" || Ascii.eqb c "." || Ascii.eqb c "e" = true ->
  Ascii.eqb c "_" = false /\ Float.blank c = false.
Proof.
  destruct c as [[] [] [] [] [] [] [] []]; try discriminate; intros _; split; reflexivity.
Qed.

Lemma digit_char_not_sign (c : ascii) (s : string) :
  Str.is_digit c = true ->
  Float.take_sign (String c s) = (false, String c s)
  /\ Ascii.eqb c "." = false
  /\ Ascii.eqb c "e" || Ascii.eqb c "E" = false
  /\ Float.digit_char (Float.digit_of c) = c.
Proof.
  destruct c as [[] [] [] [] [] [] [] []]; try discriminate; intros _; repeat split.
Qed.

Lemma plain_app (a b : string) : plain (a ++ b) = plain a && plain b.
Proof.
  induction a as [|c a IH]; simpl; [reflexivity|].
  now rewrite IH, !andb_assoc.
Qed.

Lemma all_digits_plain (s : string) : all_digits s = true -> plain s = true.
Proof.
  induction s as [|c s IH]; simpl; [reflexivity|].
  intros [Hc Hs]%andb_true_iff. now rewrite Hc, IH.
Qed.

Lemma plain_integer_token (neg : bool) (d : string) :
  all_digits d = true -> plain (Float.sign_text neg ++ d) = true.
Proof.
  intros Hd. rewrite (plain_app (Float.sign_text neg) d), (all_digits_plain d Hd).
  now destruct neg.
Qed.

Lemma plain_token (neg : bool) (d fp : string) :
  all_digits d = true -> all_digits fp = true ->
  plain (Float.sign_text neg ++ d ++ "." ++ fp) = true.
Proof.
  intros Hd Hfp.
  rewrite (plain_app (Float.sign_text neg) (d ++ "." ++ fp)).
  rewrite (plain_app d ("." ++ fp)), (all_digits_plain d Hd).
  change (plain ("." ++ fp)) with (plain fp).
  rewrite (all_digits_plain fp Hfp). now destruct neg.
Qed.

Lemma drop_underscores_plain (s : string) :
  forall prev,
    Ascii.eqb prev "_" = false ->
    plain s = true ->
    Float.drop_underscores prev s = Some s.
Proof.
  induction s as [|c s IH]; intros prev Hprev; simpl.
  - now rewrite Hprev.
  - intros [Hc Hs]%andb_true_iff.
    destruct (plain_char c Hc) as [Hu _].
    rewrite Hu, Hprev. simpl. now rewrite (IH c Hu Hs).
Qed.

Lemma strip_blank_plain (s : string) :
  plain s = true -> Float.rstrip_blank (Float.lstrip_blank s) = s.
Proof.
  intros Hs.
  assert (Float.rstrip_blank s = s) as Hr.
  { induction s as [|c s IH]; simpl; [reflexivity|].
    simpl in Hs. apply andb_true_iff in Hs as [Hc Hs].
    destruct (plain_char c Hc) as [_ Hb]. now rewrite Hb, (IH Hs). }
  destruct s as [|c s]; [reflexivity|].
  simpl in Hs. apply andb_true_iff in Hs as [Hc _].
  destruct (plain_char c Hc) as [_ Hb].
  cbn [Float.lstrip_blank]. now rewrite Hb.
Qed.

Lemma span_digits_all (d : string) :
  all_digits d = true -> Float.span_digits d = (d, EmptyString).
Proof.
  induction d as [|c d IH]; simpl; [reflexivity|].
  intros [Hc Hd]%andb_true_iff. now rewrite Hc, (IH Hd).
Qed.

Lemma span_digits_point (d r : string) :
  all_digits d = true ->
  Float.span_digits (d ++ String "." r) = (d, String "." r).
Proof.
  induction d as [|c d IH]; simpl; [reflexivity|].
  intros [Hc Hd]%andb_true_iff. now rewrite Hc, (IH Hd).
Qed.

Lemma take_sign_plain (neg : bool) (d r : string) :
  d <> EmptyString -> all_digits d = true ->
  Float.take_sign (Float.sign_text neg ++ d ++ r) = (neg, d ++ r).
Proof.
  intros Hne Hd. destruct d as [|c d]; [congruence|].
  simpl in Hd. apply andb_true_iff in Hd as [Hc _].
  destruct neg; [reflexivity|].
  apply (digit_char_not_sign c (d ++ r) Hc).
Qed.

Lemma strtod_plain (neg : bool) (d fp : string) :
  d <> EmptyString -> all_digits d = true -> all_digits fp = true ->
  Float.strtod (Float.sign_text neg ++ d ++ "." ++ fp)
  = Some (Float.of_ratio neg (Float.digits_value (d ++ fp)) (10 ^ Z.of_nat (String.length fp)),
          EmptyString).
Proof.
  intros Hne Hd Hfp. unfold Float.strtod.
  rewrite (take_sign_plain neg d _ Hne Hd).
  change ("." ++ fp) with (String "." fp).
  rewrite (span_digits_point d fp Hd).
  cbn [Float.take_fraction]. change (Ascii.eqb "." ".") with true. cbn iota.
  rewrite (span_digits_all fp Hfp).
  replace (Str.is_empty d) with false by (destruct d; [congruence|reflexivity]).
  cbn [andb Float.take_exponent].
  replace (Z.max 0 (0 - Z.of_nat (String.length fp))) with 0 by lia.
  replace (Z.max 0 (- (0 - Z.of_nat (String.length fp))))
    with (Z.of_nat (String.length fp)) by lia.
  now rewrite Z.pow_0_r, Z.mul_1_r.
Qed.

Lemma strtod_plain_integer (neg : bool) (d : string) :
  d <> EmptyString -> all_digits d = true ->
  Float.strtod (Float.sign_text neg ++ d)
  = Some (Float.of_ratio neg (Float.digits_value d) 1, EmptyString).
Proof.
  intros Hne Hd. unfold Float.strtod.
  rewrite <- (append_empty_r d) at 1.
  rewrite (take_sign_plain neg d _ Hne Hd), append_empty_r.
  rewrite (span_digits_all d Hd).
  cbn [Float.take_fraction].
  replace (Str.is_empty d) with false by (destruct d; [congruence|reflexivity]).
  cbn [andb Float.take_exponent String.length].
  rewrite append_empty_r.
  change (10 ^ Z.max 0 (0 - Z.of_nat 0)) with 1.
  change (10 ^ Z.max 0 (- (0 - Z.of_nat 0))) with 1.
  now rewrite Z.mul_1_r.
Qed.

Lemma float_plain (tok : string) (x : pyfloat) :
  plain tok = true ->
  Float.strtod tok = Some (x, EmptyString) ->
  Float.float tok = Some x.
Proof.
  intros Hp Hs. unfold Float.float.
  rewrite (drop_underscores_plain tok "000"%char eq_refl Hp). cbn [mbind option_bind].
  now rewrite (strip_blank_plain tok Hp), Hs.
Qed.

(** *** Rounding twice without loss *)

Lemma round_half_even_unique (n d q : Z) :
  0 < d -> 2 * Z.abs (q * d - n) < d -> Float.round_half_even n d = q.
Proof.
  intros Hd Hq. unfold Float.round_half_even.
  pose proof (Z.div_mod n d ltac:(lia)) as Hdm.
  pose proof (Z.mod_pos_bound n d Hd) as Hr.
  set (k := q - n / d).
  assert (q * d - n = k * d - n mod d) as Hk by (unfold k; lia).
  rewrite Hk in Hq.
  assert (k <= -1 \/ k = 0 \/ k = 1 \/ 2 <= k) as Hcases by lia.
  destruct (Z.compare_spec (2 * (n mod d)) d) as [Hc|Hc|Hc];
    [destruct (Z.even (n / d))|..];
    destruct Hcases as [H|[H|[H|H]]]; try (unfold k in H; lia); nia.
Qed.

Lemma ilog2_ratio_below (num den : Z) :
  0 < num -> 0 < den -> num < 2 ^ 32 * den -> Float.ilog2_ratio num den <= 32.
Proof.
  intros Hn Hd Hlt.
  assert (Z.log2 num <= 32 + Z.log2 den).
  { rewrite <- (Z.log2_mul_pow2 den 32) by lia. apply Z.log2_le_mono. lia. }
  unfold Float.ilog2_ratio. destruct (_ <? _); lia.
Qed.

(** A value below [2^32] with six decimals at most survives the
    conversion to a double and the rounding of [.6f]: what is printed is
    the value itself. *)
Lemma format_of_ratio_exact (neg : bool) (num den q : Z) :
  0 <= num -> 0 < den -> num < 2 ^ 32 * den ->
  q * den = num * 10 ^ 6 ->
  Float.format_6f (Float.of_ratio neg num den)
  = Float.sign_text neg ++ Float.decimal (q / 10 ^ 6) ++ "."
    ++ Float.fixed_digits 6 (q mod 10 ^ 6).
Proof.
  intros Hnum Hden Hlt Hq. unfold Float.of_ratio.
  destruct (Z.eqb_spec num 0) as [->|Hnz].
  - assert (q = 0) as -> by nia. reflexivity.
  - pose proof (ilog2_ratio_below num den ltac:(lia) Hden Hlt) as HL.
    set (e := Z.max (Float.ilog2_ratio num den - 52) (-1074)).
    assert (-1074 <= e <= -20) as He by (unfold e; lia).
    replace (Z.max 0 (- e)) with (- e) by lia.
    replace (Z.max 0 e) with 0 by lia.
    rewrite Z.pow_0_r, Z.mul_1_r.
    set (P := 2 ^ (- e)).
    assert (2 ^ 20 <= P) as HP by (apply Z.pow_le_mono_r; lia).
    pose proof (round_half_even_nearest (num * P) den Hden) as Hnear.
    pose proof (round_half_even_nonneg (num * P) den ltac:(nia) Hden) as Hm.
    set (m := Float.round_half_even (num * P) den) in *.
    assert (m <= 2 ^ 32 * P) as Hmle by nia.
    assert (m * 2 ^ (e + 1074) < 2 ^ 2098) as Hfin.
    { apply Z.le_lt_trans with (2 ^ 32 * P * 2 ^ (e + 1074)).
      - apply Z.mul_le_mono_nonneg_r; [apply Z.pow_nonneg; lia | exact Hmle].
      - unfold P. rewrite <- Z.mul_assoc, <- !Z.pow_add_r by lia.
        apply Z.pow_lt_mono_r; lia. }
    apply Z.leb_gt in Hfin. rewrite Hfin.
    unfold Float.format_6f.
    replace (Z.max 0 (- e)) with (- e) by lia.
    replace (Z.max 0 e) with 0 by lia.
    rewrite Z.pow_0_r, Z.mul_1_r. fold P.
    rewrite (round_half_even_unique (m * 10 ^ 6) P q); [reflexivity | lia |].
    assert (2 * Z.abs (q * P - m * 10 ^ 6) * den <= 10 ^ 6 * den) as Hb.
    { rewrite <- Z.mul_assoc, <- (Z.abs_eq den) at 1 by lia.
      rewrite <- Z.abs_mul.
      replace ((q * P - m * 10 ^ 6) * den)
        with (- (10 ^ 6 * (m * den - num * P))) by nia.
      rewrite Z.abs_opp, Z.abs_mul, (Z.abs_eq (10 ^ 6)) by lia.
      nia. }
    assert (2 * Z.abs (q * P - m * 10 ^ 6) <= 10 ^ 6) by nia.
    lia.
Qed.

(** *** Digits in, digits out *)

Lemma digits_value_from_shift (s : string) :
  forall a,
    Float.digits_value_from a s
    = a * 10 ^ Z.of_nat (String.length s) + Float.digits_value_from 0 s.
Proof.
  induction s as [|c s IH]; intros a.
  - simpl. lia.
  - cbn [Float.digits_value_from String.length].
    rewrite (IH (10 * a + Float.digit_of c)), (IH (10 * 0 + Float.digit_of c)).
    rewrite Nat2Z.inj_succ, Z.pow_succ_r by lia. lia.
Qed.

Lemma digits_value_bound (s : string) :
  all_digits s = true ->
  0 <= Float.digits_value_from 0 s < 10 ^ Z.of_nat (String.length s).
Proof.
  induction s as [|c s IH].
  - intros _. simpl. lia.
  - cbn [all_digits Float.digits_value_from String.length].
    intros [Hc Hs]%andb_true_iff. specialize (IH Hs).
    rewrite digits_value_from_shift, Nat2Z.inj_succ, Z.pow_succ_r by lia.
    unfold Str.is_digit in Hc. apply andb_true_iff in Hc as [Hlo%N.leb_le Hhi%N.leb_le].
    unfold Float.digit_of. nia.
Qed.

Lemma fixed_digits_left (k : nat) :
  forall n,
    Float.fixed_digits (S k) n
    = String (Float.digit_char ((n / 10 ^ Z.of_nat k) mod 10)) (Float.fixed_digits k n).
Proof.
  induction k as [|k IH]; intros n.
  - simpl. now rewrite Z.div_1_r.
  - change (Float.fixed_digits (S (S k)) n)
      with (Float.fixed_digits (S k) (n / 10)
            ++ String (Float.digit_char (n mod 10)) EmptyString).
    rewrite IH. cbn [Float.fixed_digits String.append].
    rewrite Nat2Z.inj_succ, Z.pow_succ_r, Z.div_div by lia.
    reflexivity.
Qed.

Lemma fixed_digits_of_value (s : string) :
  all_digits s = true ->
  forall a, Float.fixed_digits (String.length s) (Float.digits_value_from a s) = s.
Proof.
  induction s as [|c s IH]; [reflexivity|].
  cbn [all_digits String.length Float.digits_value_from].
  intros [Hc Hs]%andb_true_iff a.
  rewrite fixed_digits_left, (IH Hs). f_equal.
  rewrite digits_value_from_shift.
  pose proof (digits_value_bound s Hs) as Hb.
  rewrite Z.div_add_l by lia.
  rewrite (Z.div_small (Float.digits_value_from 0 s)) by lia.
  rewrite Z.add_0_r, Z.add_comm, Z.mul_comm, Z.mod_add by lia.
  unfold Str.is_digit in Hc. pose proof Hc as Hc'.
  apply andb_true_iff in Hc' as [Hlo%N.leb_le Hhi%N.leb_le].
  rewrite Z.mod_small by (unfold Float.digit_of; lia).
  now apply (digit_char_not_sign c EmptyString).
Qed.

Lemma zeros_snoc (j : nat) : zeros j ++ "0" = zeros (S j).
Proof. induction j as [|j IH]; simpl; [reflexivity | now rewrite IH]. Qed.

Lemma fixed_digits_zeros (k j : nat) (v : Z) :
  Float.fixed_digits (j + k) (v * 10 ^ Z.of_nat j) = Float.fixed_digits k v ++ zeros j.
Proof.
  induction j as [|j IH].
  - simpl. now rewrite Z.mul_1_r, append_empty_r.
  - cbn [Nat.add Float.fixed_digits].
    rewrite Nat2Z.inj_succ, Z.pow_succ_r by lia.
    replace (v * (10 * 10 ^ Z.of_nat j)) with (v * 10 ^ Z.of_nat j * 10) by lia.
    rewrite Z.div_mul, Z.mod_mul, IH by lia.
    now rewrite append_assoc, zeros_snoc.
Qed.

(** *** The echo *)

Lemma echo_plain_decimal (neg : bool) (n : Z) (fp : string) :
  0 <= n < 2 ^ 32 ->
  all_digits fp = true ->
  (String.length fp <= 6)%nat ->
  Float.format_6f <$> Float.float (Float.sign_text neg ++ Float.decimal n ++ "." ++ fp)
  = Some (Float.sign_text neg ++ Float.decimal n ++ "." ++ fp
          ++ zeros (6 - String.length fp))
  /\ Float.format_6f <$> Float.float (Float.sign_text neg ++ Float.decimal n)
     = Some (Float.sign_text neg ++ Float.decimal n ++ "." ++ zeros 6).
Proof.
  intros Hn Hfp Hlen.
  destruct (decimal_spec n ltac:(lia)) as [d [Hdec [Hne [Hd Hv]]]]. rewrite !Hdec.
  assert (Float.digits_value_from 0 d = n) as Hvd by (rewrite Hv; lia).
  split.
  - rewrite (float_plain _ _ (plain_token neg d fp Hd Hfp)
                         (strtod_plain neg d fp Hne Hd Hfp)).
    cbn [fmap option_fmap option_map]. f_equal.
    set (k := String.length fp) in *. set (j := (6 - k)%nat).
    assert (Z.of_nat j + Z.of_nat k = 6) as Hjk by (unfold j; lia).
    pose proof (digits_value_bound fp Hfp) as Hb. fold k in Hb.
    set (F := Float.digits_value_from 0 fp) in *.
    assert (Float.digits_value (d ++ fp) = n * 10 ^ Z.of_nat k + F) as HD.
    { unfold Float.digits_value. rewrite digits_value_from_app, Hvd.
      apply digits_value_from_shift. }
    assert (10 ^ Z.of_nat j * 10 ^ Z.of_nat k = 10 ^ 6) as Hpow
      by (rewrite <- Z.pow_add_r, Hjk by lia; reflexivity).
    assert (0 < 10 ^ Z.of_nat k) as Hk by (apply Z.pow_pos_nonneg; lia).
    assert (0 < 10 ^ Z.of_nat j) as Hj by (apply Z.pow_pos_nonneg; lia).
    rewrite HD.
    rewrite (format_of_ratio_exact neg _ _ ((n * 10 ^ Z.of_nat k + F) * 10 ^ Z.of_nat j));
      [|nia..].
    assert ((n * 10 ^ Z.of_nat k + F) * 10 ^ Z.of_nat j
            = n * 10 ^ 6 + F * 10 ^ Z.of_nat j) as -> by nia.
    assert (0 <= F * 10 ^ Z.of_nat j < 10 ^ 6) as Hr by nia.
    rewrite Z.add_comm, Z.div_add, Z.mod_add by lia.
    rewrite Z.div_small, Z.mod_small by lia. rewrite Z.add_0_l.
    replace 6%nat with (j + k)%nat at 1 by (unfold j; lia).
    rewrite fixed_digits_zeros. unfold F, k.
    now rewrite (fixed_digits_of_value fp Hfp 0), Hdec.
  - rewrite (float_plain _ _ (plain_integer_token neg d Hd)
                         (strtod_plain_integer neg d Hne Hd)).
    cbn [fmap option_fmap option_map]. f_equal.
    unfold Float.digits_value. rewrite Hvd.
    rewrite (format_of_ratio_exact neg _ _ (n * 10 ^ 6)) by lia.
    now rewrite Z.div_mul, Z.mod_mul, Hdec by lia.
Qed.

(** *** Numbers beyond the range *)



(** *** Exponents *)






End PlainDecimals.

(** X9. Plain decimal numbers are echoed.  A token made of an optional
    minus sign, the digits of an integer below [2^32], a point and six
    digits at most is printed as it was written, filled with zeros up to
    six decimals; without point and decimals, it is printed followed by a
    point and six zeros.  Neither the conversion to a double nor the
    rounding of [.6f] changes a digit. *)
Theorem plain_decimal_is_echoed (neg : bool) (n : Z) (fp : string) :
  0 <= n < 2 ^ 32 ->
  all_digits fp = true ->
  (String.length fp <= 6)%nat ->
  Float.format_6f <$> Float.float (Float.sign_text neg ++ Float.decimal n ++ "." ++ fp)
  = Some (Float.sign_text neg ++ Float.decimal n ++ "." ++ fp
          ++ zeros (6 - String.length fp))
  /\ Float.format_6f <$> Float.float (Float.sign_text neg ++ Float.decimal n)
     = Some (Float.sign_text neg ++ Float.decimal n ++ "." ++ zeros 6).
Proof. apply echo_plain_decimal. Qed.

Lemma plain_decimal_is_echoed_witness :
  Float.format_6f <$> Float.float (Float.sign_text true ++ Float.decimal 12 ++ "." ++ "3456")
  = Some (Float.sign_text true ++ Float.decimal 12 ++ "." ++ "3456"
          ++ zeros (6 - String.length "3456"))
  /\ Float.format_6f <$> Float.float (Float.sign_text true ++ Float.decimal 12)
     = Some (Float.sign_text true ++ Float.decimal 12 ++ "." ++ zeros 6).
Proof.
  apply (plain_decimal_is_echoed true 12 "3456").
  - lia.
  - reflexivity.
  - simpl. lia.
Defined.

(** X10. What the conversion prints, it reads back unchanged.  The text
    printed for a finite number that [float] returned, of magnitude below
    [2^32 - 1], is a token that [float] accepts and that is printed as
    the same text again: numbers taken from an array written by the
    script come out of a second conversion digit for digit. *)
Theorem printed_number_is_stable (tok : string) (neg : bool) (m e : Z) :
  Float.float tok = Some (Finite neg m e) ->
  m * 2 ^ Z.max 0 e < (2 ^ 32 - 1) * 2 ^ Z.max 0 (- e) ->
  Float.format_6f <$> Float.float (Float.format_6f (Finite neg m e))
  = Some (Float.format_6f (Finite neg m e)).
Proof.
  intros Hm%float_finite_nonneg Hlt. unfold Float.format_6f at 2 3.
  set (num := m * 2 ^ Z.max 0 e * 10 ^ 6).
  set (den := 2 ^ Z.max 0 (- e)).
  assert (0 < den) as Hden by (apply Z.pow_pos_nonneg; lia).
  assert (0 <= m * 2 ^ Z.max 0 e) as Hv
    by (apply Z.mul_nonneg_nonneg; [lia | apply Z.pow_nonneg; lia]).
  pose proof (round_half_even_nonneg num den ltac:(unfold num; lia) Hden) as Hq.
  pose proof (round_half_even_nearest num den Hden) as Hnear.
  set (q := Float.round_half_even num den) in *.
  assert (q < 2 ^ 32 * 10 ^ 6) as Hqlt by (unfold num in Hnear; nia).
  destruct (echo_plain_decimal neg (q / 10 ^ 6) (Float.fixed_digits 6 (q mod 10 ^ 6)))
    as [Hecho _].
  - split; [apply Z.div_pos; lia | apply Z.div_lt_upper_bound; lia].
  - apply fixed_digits_digits.
  - rewrite fixed_digits_length. lia.
  - rewrite Hecho, fixed_digits_length. simpl zeros. now rewrite append_empty_r.
Qed.

Lemma printed_number_is_stable_witness :
  Float.format_6f <$> Float.float (Float.format_6f (Finite false 7205759403792794 (-56)))
  = Some (Float.format_6f (Finite false 7205759403792794 (-56))).
Proof.
  apply (printed_number_is_stable "0.1" false 7205759403792794 (-56)).
  - vm_compute. reflexivity.
  - vm_compute. reflexivity.
Defined.



(** ** What is printed for a number *)


